(** * The event registration ledger of eventBackend

    A shallow embedding of the Mongoose model [Event] and of the Express
    handlers of [routes/eventRoutes]: create, register, unregister, update and
    delete.  The [events] collection is a finite map from [_id] to document;
    every handler is a function from the collection to the collection after
    the request and the response sent.

    Boundaries of the model.
    - Identifiers are ObjectIds, written as their 24 digit hexadecimal
      rendering.  A [:id] parameter that is no ObjectId makes the driver's
      cast throw, which the handlers answer with status 500 from their
      [catch] branch without touching a document; such requests, like store
      outages, are not modelled.
    - A stored [capacity] is a finite JavaScript number, read as a rational.
    - The listing of all events joins the attendees with the users
      collection, whose model is not part of these sources; it is left out.
      The read of one event is [getEvent].
    - One handler runs at a time: [findOneAndUpdate] is one storage
      operation, and the handlers that read and then [save] are taken without
      interleaving. *)

From Stdlib Require Import QArith Qround.
From stdpp Require Import gmap strings list fin_maps.

Local Open Scope string_scope.
Local Open Scope list_scope.

(** ** Data model *)

Definition ObjectId : Type := string.

(** [ObjectId.prototype.toString]: the hexadecimal rendering. *)
Definition toString (o : ObjectId) : string := o.

(** A document of [EventSchema].  [capacity] is [None] when the field is
    missing or null, [image] is [None] when it is null. *)
Record Event : Type := mkEvent {
  title : string;
  description : string;
  date : Z;
  location : string;
  capacity : option Q;
  image : option string;
  attendees : list ObjectId;
  createdBy : ObjectId
}.

Abbreviation Collection := (gmap ObjectId Event).

(** ** Query and update operators of the store *)

(** [{ $size: "$attendees" }] *)
Definition size_of (arr : list ObjectId) : Q := inject_Z (Z.of_nat (length arr)).

Definition Qlt_bool (a b : Q) : bool := negb (Qle_bool b a).

(** [{ $lt: [n, "$capacity"] }] in the order of BSON values: a missing or
    null field sorts below every number, so a number is never below it. *)
Definition lt_capacity (n : Q) (cap : option Q) : bool :=
  match cap with
  | Some c => Qlt_bool n c
  | None => false
  end.

(** [attendees: { $ne: userId }] on an array field: no element equals
    [userId]. *)
Definition ne (userId : ObjectId) (arr : list ObjectId) : bool :=
  bool_decide (userId ∉ arr).

(** [$addToSet]: appended unless already an element. *)
Definition addToSet (userId : ObjectId) (arr : list ObjectId) : list ObjectId :=
  if bool_decide (userId ∈ arr) then arr else arr ++ [userId].

(** [$pull]: every element equal to [userId] is removed. *)
Definition pull (userId : ObjectId) (arr : list ObjectId) : list ObjectId :=
  filter (λ a, a ≠ userId) arr.

Definition set_attendees (arr : list ObjectId) (e : Event) : Event :=
  {| title := title e; description := description e; date := date e;
     location := location e; capacity := capacity e; image := image e;
     attendees := arr; createdBy := createdBy e |}.

(** [Event.findOneAndUpdate({ _id, ...cond }, upd, { new: true })]: the
    document with that [_id], if it satisfies [cond], is replaced by its
    update and the updated document is returned; otherwise nothing is written
    and the result is null. *)
Definition findOneAndUpdate (_id : ObjectId) (cond : Event → bool)
    (upd : Event → Event) (db : Collection) : option Event * Collection :=
  match db !! _id with
  | Some e =>
      if cond e then let e' := upd e in (Some e', <[_id := e']> db)
      else (None, db)
  | None => (None, db)
  end.

(** [Event.findByIdAndUpdate(_id, upd, { new: true })] *)
Definition findByIdAndUpdate (_id : ObjectId) (upd : Event → Event)
    (db : Collection) : option Event * Collection :=
  findOneAndUpdate _id (λ _, true) upd db.

(** [Event.findById(_id)] *)
Definition findById (_id : ObjectId) (db : Collection) : option Event :=
  db !! _id.

(** ** Requests and responses *)

(** What the schema cast makes of a value assigned to a path. *)
Inductive Cast (A : Type) : Type :=
| Unset                (* undefined: the path stays missing *)
| Null                 (* null, and the empty string on a Number or Date path *)
| Value (a : A)
| CastError.           (* the value cannot be cast; [save] will reject *)

Arguments Unset {A}.
Arguments Null {A}.
Arguments Value {A} a.
Arguments CastError {A}.

(** A field of [req.body], seen through the two things the handlers do with
    it: JavaScript truthiness, which decides [a || b], and the cast of the
    schema path it is assigned to.  The text field ["0"] of a form is truthy
    and casts to the number 0; the JSON number [0] is falsy and casts to 0;
    a field that was not sent is falsy and [Unset]. *)
Record Field (A : Type) : Type := mkField {
  truthy : bool;
  cast : Cast A
}.

Arguments mkField {A} truthy cast.
Arguments truthy {A} f.
Arguments cast {A} f.

Record Body : Type := mkBody {
  body_title : Field string;
  body_description : Field string;
  body_date : Field Z;
  body_location : Field string;
  body_capacity : Field Q
}.

Inductive Json : Type :=
| Msg (message : string)
| MsgCount (message : string) (attendeesCount : nat)
| MsgEvent (message : string) (event : Event)
| Doc (event : Event).

Record Response : Type := mkResponse {
  status : nat;
  json : Json
}.

(** ** Documents in memory and [save] *)

(** A Mongoose document before validation: every schema path holds the result
    of its cast. *)
Record Document : Type := mkDocument {
  doc_title : Cast string;
  doc_description : Cast string;
  doc_date : Cast Z;
  doc_location : Cast string;
  doc_capacity : Cast Q;
  doc_image : option string;
  doc_attendees : list ObjectId;
  doc_createdBy : ObjectId
}.

(** [{ type: String, required: true }]: a string that is not empty. *)
Definition required_string (c : Cast string) : option string :=
  match c with
  | Value s => if bool_decide (s = "") then None else Some s
  | _ => None
  end.

(** [{ type: Date, required: true }] *)
Definition required_date (c : Cast Z) : option Z :=
  match c with
  | Value d => Some d
  | _ => None
  end.

(** [{ type: Number }]: optional, but a failed cast is a validation error. *)
Definition optional_number (c : Cast Q) : option (option Q) :=
  match c with
  | Value q => Some (Some q)
  | Unset | Null => Some None
  | CastError => None
  end.

Definition validate (d : Document) : option Event :=
  t ← required_string (doc_title d);
  ds ← required_string (doc_description d);
  dt ← required_date (doc_date d);
  l ← required_string (doc_location d);
  c ← optional_number (doc_capacity d);
  Some {| title := t; description := ds; date := dt; location := l;
          capacity := c; image := doc_image d;
          attendees := doc_attendees d; createdBy := doc_createdBy d |}.

(** [await event.save()]: [None] when it throws, on a validation error or,
    for a new document, on an [_id] that is already taken. *)
Definition save (isNew : bool) (_id : ObjectId) (d : Document)
    (db : Collection) : option (Event * Collection) :=
  e ← validate d;
  if isNew && bool_decide (is_Some (db !! _id)) then None
  else Some (e, <[_id := e]> db).

(** [a || b] on a body field and the value the document holds. *)
Definition or_else {A : Type} (f : Field A) (old : Cast A) : Cast A :=
  if truthy f then cast f else old.

Definition stored_number (c : option Q) : Cast Q :=
  match c with
  | Some q => Value q
  | None => Unset
  end.

(** ** The handlers *)

Definition send (st : nat) (j : Json) : Response :=
  {| status := st; json := j |}.

(** [router.post("/")].  [newId] is the [_id] the driver generates for the
    new document, [file] the stored name of the uploaded image if any. *)
Definition create (newId userId : ObjectId) (body : Body)
    (file : option string) (db : Collection) : Collection * Response :=
  let event :=
    {| doc_title := cast (body_title body);
       doc_description := cast (body_description body);
       doc_date := cast (body_date body);
       doc_location := cast (body_location body);
       doc_capacity := cast (body_capacity body);
       doc_image := file;
       doc_attendees := [];
       doc_createdBy := userId |} in
  match save true newId event db with
  | Some (e, db') => (db', send 201 (Doc e))
  | None => (db, send 500 (Msg "Event creation failed"))
  end.

(** The filter of the registration, besides [_id]. *)
Definition can_register (userId : ObjectId) (e : Event) : bool :=
  ne userId (attendees e)
  && lt_capacity (size_of (attendees e)) (capacity e).

(** [router.post("/register/:id")] *)
Definition register (userId eventId : ObjectId) (db : Collection)
    : Collection * Response :=
  let '(event, db') :=
    findOneAndUpdate eventId (can_register userId)
      (λ e, set_attendees (addToSet userId (attendees e)) e) db in
  match event with
  | None => (db', send 400 (Msg "Event is full or already registered"))
  | Some e =>
      (db', send 200 (MsgCount "Registered successfully" (length (attendees e))))
  end.

(** [router.delete("/register/:id")] *)
Definition unregister (userId eventId : ObjectId) (db : Collection)
    : Collection * Response :=
  let '(event, db') :=
    findByIdAndUpdate eventId
      (λ e, set_attendees (pull userId (attendees e)) e) db in
  match event with
  | None => (db', send 404 (Msg "Event not found"))
  | Some e =>
      (db', send 200 (MsgCount "Unregistered successfully" (length (attendees e))))
  end.

(** [router.put("/:id")] *)
Definition update (userId eventId : ObjectId) (body : Body)
    (file : option string) (db : Collection) : Collection * Response :=
  match findById eventId db with
  | None => (db, send 404 (Msg "Event not found"))
  | Some event =>
      if bool_decide (toString (createdBy event) ≠ userId)
      then (db, send 403 (Msg "Unauthorized"))
      else
        let doc :=
          {| doc_title := or_else (body_title body) (Value (title event));
             doc_description :=
               or_else (body_description body) (Value (description event));
             doc_date := or_else (body_date body) (Value (date event));
             doc_location :=
               or_else (body_location body) (Value (location event));
             doc_capacity :=
               or_else (body_capacity body) (stored_number (capacity event));
             doc_image :=
               match file with Some f => Some f | None => image event end;
             doc_attendees := attendees event;
             doc_createdBy := createdBy event |} in
        match save false eventId doc db with
        | Some (e, db') => (db', send 200 (MsgEvent "Event updated successfully" e))
        | None => (db, send 500 (Msg "Event update failed"))
        end
  end.

(** [router.delete("/:id")] *)
Definition deleteEvent (userId eventId : ObjectId) (db : Collection)
    : Collection * Response :=
  match findById eventId db with
  | None => (db, send 404 (Msg "Event not found"))
  | Some event =>
      if bool_decide (toString (createdBy event) ≠ userId)
      then (db, send 403 (Msg "Unauthorized"))
      else (delete eventId db, send 200 (Msg "Event deleted successfully"))
  end.

(** [router.get("/:id")]: the stored document, as it is. *)
Definition getEvent (eventId : ObjectId) (db : Collection)
    : Collection * Response :=
  match findById eventId db with
  | None => (db, send 404 (Msg "Event not found"))
  | Some event => (db, send 200 (Doc event))
  end.

(** ** Sequences of requests *)

Inductive Request : Type :=
| Create (newId userId : ObjectId) (body : Body) (file : option string)
| Register (userId eventId : ObjectId)
| Unregister (userId eventId : ObjectId)
| Update (userId eventId : ObjectId) (body : Body) (file : option string)
| Delete (userId eventId : ObjectId).

Definition handle (r : Request) (db : Collection) : Collection * Response :=
  match r with
  | Create newId userId body file => create newId userId body file db
  | Register userId eventId => register userId eventId db
  | Unregister userId eventId => unregister userId eventId db
  | Update userId eventId body file => update userId eventId body file db
  | Delete userId eventId => deleteEvent userId eventId db
  end.

(** The requests served one after the other, with the responses in order. *)
Fixpoint serve (rs : list Request) (db : Collection)
    : Collection * list Response :=
  match rs with
  | [] => (db, [])
  | r :: rs' =>
      let '(db1, res) := handle r db in
      let '(db2, ress) := serve rs' db1 in
      (db2, res :: ress)
  end.

(** ** Vocabulary of the properties *)

(** The responses the handlers send, by name. *)
Definition rejected : Response :=
  send 400 (Msg "Event is full or already registered").

Definition not_found : Response := send 404 (Msg "Event not found").

Definition unauthorized : Response := send 403 (Msg "Unauthorized").

Definition registered (n : nat) : Response :=
  send 200 (MsgCount "Registered successfully" n).

Definition unregistered (n : nat) : Response :=
  send 200 (MsgCount "Unregistered successfully" n).

(** The condition of the filter, as a proposition. *)
Definition has_room (userId : ObjectId) (e : Event) : Prop :=
  (userId ∉ attendees e)
  ∧ ∃ c, capacity e = Some c ∧ (size_of (attendees e) < c)%Q.

(** Every field but [attendees] agrees. *)
Definition same_metadata (e e' : Event) : Prop :=
  title e' = title e ∧ description e' = description e ∧ date e' = date e
  ∧ location e' = location e ∧ capacity e' = capacity e
  ∧ image e' = image e ∧ createdBy e' = createdBy e.

(** From [db] to [db'] no event appeared or disappeared, no event other than
    [eventId] changed, and [eventId] changed in [attendees] at most. *)
Definition only_attendees_of (eventId : ObjectId) (db db' : Collection) : Prop :=
  ∀ id, match db !! id with
        | Some e => ∃ e', db' !! id = Some e' ∧ same_metadata e e'
                          ∧ (id ≠ eventId → e' = e)
        | None => db' !! id = None
        end.

(** No event lists a user twice. *)
Definition no_duplicates (db : Collection) : Prop :=
  ∀ id e, db !! id = Some e → NoDup (attendees e).

(** [|attendees| <= capacity], when the capacity is set. *)
Definition within_capacity (e : Event) : Prop :=
  match capacity e with
  | Some c => (size_of (attendees e) <= c)%Q
  | None => True
  end.

(** The number is a whole number. *)
Definition is_integer (q : Q) : bool := Qeq_bool q (inject_Z (Qfloor q)).

(** The capacity a request asks to store is absent, or an integer that is
    not below [n]. *)
Definition fits (n : nat) (c : Cast Q) : bool :=
  match c with
  | Value q => is_integer q && Qle_bool (inject_Z (Z.of_nat n)) q
  | _ => true
  end.

(** A create asks for a capacity that fits an empty event; an update of an
    existing event that carries a truthy capacity asks for one that fits the
    attendees the event has at that moment. *)
Definition keeps_bound (r : Request) (db : Collection) : bool :=
  match r with
  | Create _ _ body _ => fits 0 (cast (body_capacity body))
  | Update _ eventId body _ =>
      match db !! eventId with
      | Some e =>
          if truthy (body_capacity body)
          then fits (length (attendees e)) (cast (body_capacity body))
          else true
      | None => true
      end
  | _ => true
  end.

(** Every request of the run passes [keeps_bound] on the collection it
    meets. *)
Fixpoint guarded (rs : list Request) (db : Collection) : bool :=
  match rs with
  | [] => true
  | r :: rs' => keeps_bound r db && guarded rs' (handle r db).1
  end.

(** The capacity, when set, is an integer and bounds the attendees. *)
Definition bounded (e : Event) : Prop :=
  match capacity e with
  | Some c => is_integer c = true ∧ (size_of (attendees e) <= c)%Q
  | None => True
  end.

Definition all_bounded (db : Collection) : Prop :=
  ∀ id e, db !! id = Some e → bounded e.

(** One [register] call on [eventId] per element of [us], in that order. *)
Definition registrations (eventId : ObjectId) (us : list ObjectId)
    : list Request :=
  map (λ u, Register u eventId) us.

Definition is_success (r : Response) : bool := Nat.eqb (status r) 200.

Definition is_rejection (r : Response) : bool := Nat.eqb (status r) 400.

(** How many of the responses satisfy [p]. *)
Definition count_if (p : Response → bool) (rs : list Response) : nat :=
  length (filter (λ r, p r = true) rs).

(** The number of distinct users in a list of callers. *)
Definition distinct (us : list ObjectId) : nat :=
  size (list_to_set us : gset ObjectId).

(** The required text paths of a stored event are not empty. *)
Definition well_formed (e : Event) : Prop :=
  title e ≠ "" ∧ description e ≠ "" ∧ location e ≠ "".

Definition all_well_formed (db : Collection) : Prop :=
  ∀ id e, db !! id = Some e → well_formed e.

(** Every field of the body is falsy: nothing the update would assign. *)
Definition sends_nothing (body : Body) : Prop :=
  truthy (body_title body) = false
  ∧ truthy (body_description body) = false
  ∧ truthy (body_date body) = false
  ∧ truthy (body_location body) = false
  ∧ truthy (body_capacity body) = false.

(** A truthy field of the body that its schema path cannot cast. *)
Definition sends_uncastable (body : Body) : Prop :=
  (truthy (body_title body) = true ∧ cast (body_title body) = CastError)
  ∨ (truthy (body_description body) = true
     ∧ cast (body_description body) = CastError)
  ∨ (truthy (body_date body) = true ∧ cast (body_date body) = CastError)
  ∨ (truthy (body_location body) = true
     ∧ cast (body_location body) = CastError)
  ∨ (truthy (body_capacity body) = true
     ∧ cast (body_capacity body) = CastError).

(** The request is a registration or an unregistration on [eventId]. *)
Definition on_ledger_of (eventId : ObjectId) (r : Request) : Prop :=
  ∃ userId, r = Register userId eventId ∨ r = Unregister userId eventId.

(** The request is a delete of [eventId]. *)
Definition deletes (eventId : ObjectId) (r : Request) : bool :=
  match r with
  | Delete _ id => bool_decide (id = eventId)
  | _ => false
  end.

Definition created : nat := 201.

Definition creation_failed : Response :=
  send 500 (Msg "Event creation failed").

Definition update_failed : Response := send 500 (Msg "Event update failed").

Definition deleted : Response := send 200 (Msg "Event deleted successfully").

(** ** Sample data *)

Definition alice : ObjectId := "64b000000000000000000001".
Definition bob : ObjectId := "64b000000000000000000002".
Definition carol : ObjectId := "64b000000000000000000003".
Definition ev1 : ObjectId := "64e000000000000000000001".
Definition ev2 : ObjectId := "64e000000000000000000002".

(** An event of alice with two seats and nobody registered. *)
Definition meetup : Event :=
  {| title := "Meetup"; description := "Monthly meetup"; date := 1767225600000;
     location := "Hall A"; capacity := Some (2 # 1); image := None;
     attendees := []; createdBy := alice |}.

Definition one_event : Collection := {[ ev1 := meetup ]}.

(** An event stored without a capacity. *)
Definition open_event : Event :=
  {| title := "Open day"; description := "No limit"; date := 1767225600000;
     location := "Campus"; capacity := None; image := None;
     attendees := []; createdBy := alice |}.

(** The form that creates [meetup]: every field a non-empty text. *)
Definition new_meetup : Body :=
  {| body_title := mkField true (Value "Meetup");
     body_description := mkField true (Value "Monthly meetup");
     body_date := mkField true (Value 1767225600000%Z);
     body_location := mkField true (Value "Hall A");
     body_capacity := mkField true (Value (2 # 1)) |}.

(** Forms that send only a location and a capacity, 1 and 3. *)
Definition smaller_hall : Body :=
  {| body_title := mkField false Unset;
     body_description := mkField false Unset;
     body_date := mkField false Unset;
     body_location := mkField true (Value "Room 2");
     body_capacity := mkField true (Value (1 # 1)) |}.

Definition larger_hall : Body :=
  {| body_title := mkField false Unset;
     body_description := mkField false Unset;
     body_date := mkField false Unset;
     body_location := mkField true (Value "Hall B");
     body_capacity := mkField true (Value (3 # 1)) |}.

(** A form with no field at all. *)
Definition empty_form : Body :=
  {| body_title := mkField false Unset;
     body_description := mkField false Unset;
     body_date := mkField false Unset;
     body_location := mkField false Unset;
     body_capacity := mkField false Unset |}.

(** A form whose capacity is a text that is no number. *)
Definition bad_capacity : Body :=
  {| body_title := mkField false Unset;
     body_description := mkField false Unset;
     body_date := mkField false Unset;
     body_location := mkField false Unset;
     body_capacity := mkField true CastError |}.

(** The JSON body [{ "capacity": 0 }]: the number 0 is falsy. *)
Definition capacity_zero : Body :=
  {| body_title := mkField false Unset;
     body_description := mkField false Unset;
     body_date := mkField false Unset;
     body_location := mkField false Unset;
     body_capacity := mkField false (Value (0 # 1)) |}.

(** * Properties *)

(** ** The operators *)

Lemma Qlt_bool_iff (a b : Q) : Qlt_bool a b = true ↔ (a < b)%Q.
Proof.
  unfold Qlt_bool. rewrite negb_true_iff. split.
  - intros H. apply Qnot_le_lt. intros Hle.
    apply Qle_bool_iff in Hle. congruence.
  - intros H. destruct (Qle_bool b a) eqn:E; [|done].
    apply Qle_bool_iff in E. exfalso. by apply (Qlt_not_le a b).
Qed.

Lemma lt_capacity_iff (n : Q) (cap : option Q) :
  lt_capacity n cap = true ↔ ∃ c, cap = Some c ∧ (n < c)%Q.
Proof.
  destruct cap as [c|]; simpl.
  - rewrite Qlt_bool_iff. split; [eauto|]. by intros (c' & [= <-] & H).
  - split; [done|]. by intros (c' & [=] & _).
Qed.

Lemma ne_iff (u : ObjectId) (arr : list ObjectId) : ne u arr = true ↔ u ∉ arr.
Proof. unfold ne. apply bool_decide_eq_true. Qed.

Lemma addToSet_fresh (u : ObjectId) (arr : list ObjectId) :
  u ∉ arr → addToSet u arr = arr ++ [u].
Proof. intros H. unfold addToSet. by rewrite bool_decide_eq_false_2. Qed.

Lemma addToSet_member (u : ObjectId) (arr : list ObjectId) :
  u ∈ arr → addToSet u arr = arr.
Proof. intros H. unfold addToSet. by rewrite bool_decide_eq_true_2. Qed.

Lemma NoDup_addToSet (u : ObjectId) (arr : list ObjectId) :
  NoDup arr → NoDup (addToSet u arr).
Proof.
  intros H. unfold addToSet. case_bool_decide as Hin; [done|].
  apply NoDup_app. split_and!; [done| |apply NoDup_singleton].
  intros x Hx Hx'. apply list_elem_of_singleton in Hx'. by subst.
Qed.

Lemma pull_absent (u : ObjectId) (arr : list ObjectId) :
  u ∉ arr → pull u arr = arr.
Proof.
  unfold pull. induction arr as [|a arr IH]; intros H; [done|].
  apply not_elem_of_cons in H as [Hne Hin].
  rewrite filter_cons_True by congruence. by rewrite IH.
Qed.

Lemma pull_removes (u : ObjectId) (arr : list ObjectId) : u ∉ pull u arr.
Proof. unfold pull. by intros [Hne _]%list_elem_of_filter. Qed.

Lemma pull_snoc (u : ObjectId) (arr : list ObjectId) :
  pull u (arr ++ [u]) = pull u arr.
Proof.
  unfold pull. rewrite filter_app, filter_cons_False; [|naive_solver].
  by rewrite filter_nil, app_nil_r.
Qed.

Lemma NoDup_pull (u : ObjectId) (arr : list ObjectId) :
  NoDup arr → NoDup (pull u arr).
Proof. apply NoDup_filter. Qed.

Lemma length_pull (u : ObjectId) (arr : list ObjectId) :
  (length (pull u arr) ≤ length arr)%nat.
Proof. apply length_filter. Qed.

Lemma set_attendees_same (e : Event) : set_attendees (attendees e) e = e.
Proof. by destruct e. Qed.

Lemma set_attendees_twice (a b : list ObjectId) (e : Event) :
  set_attendees a (set_attendees b e) = set_attendees a e.
Proof. done. Qed.

Lemma attendees_set (a : list ObjectId) (e : Event) :
  attendees (set_attendees a e) = a.
Proof. done. Qed.

(** ** One request: what [register] and [unregister] compute *)

Lemma can_register_iff (userId : ObjectId) (e : Event) :
  can_register userId e = true ↔ has_room userId e.
Proof.
  unfold can_register, has_room.
  by rewrite andb_true_iff, ne_iff, lt_capacity_iff.
Qed.

Lemma register_missing (userId eventId : ObjectId) (db : Collection) :
  db !! eventId = None → register userId eventId db = (db, rejected).
Proof. intros H. unfold register, findOneAndUpdate. by rewrite H. Qed.

Lemma register_accept (userId eventId : ObjectId) (db : Collection) (e : Event) :
  db !! eventId = Some e → can_register userId e = true →
  register userId eventId db
  = (<[eventId := set_attendees (attendees e ++ [userId]) e]> db,
     registered (S (length (attendees e)))).
Proof.
  intros H Hc. unfold register, findOneAndUpdate. rewrite H, Hc.
  apply andb_true_iff in Hc as [Hne _]. apply ne_iff in Hne.
  rewrite addToSet_fresh by done. cbn.
  by rewrite length_app, Nat.add_1_r.
Qed.

Lemma register_reject (userId eventId : ObjectId) (db : Collection) (e : Event) :
  db !! eventId = Some e → can_register userId e = false →
  register userId eventId db = (db, rejected).
Proof. intros H Hc. unfold register, findOneAndUpdate. by rewrite H, Hc. Qed.

Lemma unregister_missing (userId eventId : ObjectId) (db : Collection) :
  db !! eventId = None → unregister userId eventId db = (db, not_found).
Proof.
  intros H. unfold unregister, findByIdAndUpdate, findOneAndUpdate.
  by rewrite H.
Qed.

Lemma unregister_found (userId eventId : ObjectId) (db : Collection) (e : Event) :
  db !! eventId = Some e →
  unregister userId eventId db
  = (<[eventId := set_attendees (pull userId (attendees e)) e]> db,
     unregistered (length (pull userId (attendees e)))).
Proof.
  intros H. unfold unregister, findByIdAndUpdate, findOneAndUpdate.
  by rewrite H.
Qed.

(** ** Register *)

(** C2. On an existing event, [register] appends the user to [attendees]
    exactly when the user is not yet in it and the number of attendees is
    strictly below the capacity.  In that case the response is the success
    with the count after the insertion; otherwise it is the rejection and the
    collection is unchanged. *)
Theorem register_postcondition
    (userId eventId : ObjectId) (db : Collection) (e : Event) :
  db !! eventId = Some e →
  (has_room userId e →
     register userId eventId db
     = (<[eventId := set_attendees (attendees e ++ [userId]) e]> db,
        registered (length (attendees e ++ [userId]))))
  ∧ (¬ has_room userId e → register userId eventId db = (db, rejected))
  ∧ ((∃ e', (register userId eventId db).1 !! eventId = Some e'
            ∧ attendees e' = attendees e ++ [userId])
     ↔ has_room userId e).
Proof.
  intros He.
  assert (Hno : ¬ has_room userId e →
                register userId eventId db = (db, rejected)).
  { intros Hn. apply (register_reject _ _ _ e); [done|].
    destruct (can_register userId e) eqn:E; [|done].
    by apply can_register_iff in E. }
  assert (Hyes : has_room userId e →
                 register userId eventId db
                 = (<[eventId := set_attendees (attendees e ++ [userId]) e]> db,
                    registered (length (attendees e ++ [userId])))).
  { intros Hr. rewrite (register_accept _ _ _ e); [|done|by apply can_register_iff].
    by rewrite length_app, Nat.add_1_r. }
  split_and!; [done|done|]. split.
  - intros (e' & Hl & Ha).
    destruct (can_register userId e) eqn:E; [by apply can_register_iff|].
    rewrite (register_reject _ _ _ e) in Hl by done. cbn in Hl.
    rewrite He in Hl. injection Hl as <-.
    apply (f_equal length) in Ha. rewrite length_app in Ha. cbn in Ha. lia.
  - intros Hr. rewrite Hyes by done. cbn.
    rewrite lookup_insert_eq. by eexists.
Qed.

Lemma register_postcondition_witness :
  one_event !! ev1 = Some meetup
  ∧ register bob ev1 one_event
    = (<[ev1 := set_attendees [bob] meetup]> one_event, registered 1).
Proof.
  split; [reflexivity|].
  apply (register_postcondition bob ev1 one_event meetup); [reflexivity|].
  split; [by vm_compute; intros ?%elem_of_nil|].
  exists (2 # 1)%Q. split; reflexivity.
Defined.

(** C5. For an [_id] that no event has, [register] answers with the same
    status 400 and message as for a full event or a repeated registration,
    where [unregister] answers 404; the collection is unchanged. *)
Theorem register_unknown_event (userId eventId : ObjectId) (db : Collection) :
  db !! eventId = None →
  register userId eventId db = (db, rejected)
  ∧ unregister userId eventId db = (db, not_found)
  ∧ rejected ≠ not_found.
Proof.
  intros H. split_and!.
  - by apply register_missing.
  - by apply unregister_missing.
  - discriminate.
Qed.

Lemma register_unknown_event_witness :
  one_event !! ev2 = None
  ∧ register bob ev2 one_event
    = (one_event, send 400 (Msg "Event is full or already registered")).
Proof.
  split; [reflexivity|].
  apply (register_unknown_event bob ev2 one_event). reflexivity.
Defined.

(** C8 as the spec states it fails: an event without a capacity rejects a
    user who is not among its attendees. *)
Lemma register_without_capacity_rejected :
  capacity open_event = None
  ∧ (bob ∉ attendees open_event)
  ∧ register bob ev1 {[ ev1 := open_event ]} = ({[ ev1 := open_event ]}, rejected).
Proof.
  split_and!; [done|by intros ?%elem_of_nil|].
  apply (register_reject _ _ _ open_event); reflexivity.
Qed.

(** C8, amended.  For an event whose capacity is not set, every call of
    [register] is rejected and changes nothing; a user who is not yet an
    attendee is admitted only when a capacity is stored and the number of
    attendees is below it. *)
Theorem register_needs_capacity
    (userId eventId : ObjectId) (db : Collection) (e : Event) :
  db !! eventId = Some e →
  (capacity e = None → register userId eventId db = (db, rejected))
  ∧ (userId ∉ attendees e →
     ((register userId eventId db).2 = registered (S (length (attendees e)))
      ↔ ∃ c, capacity e = Some c ∧ (size_of (attendees e) < c)%Q)).
Proof.
  intros He. split.
  - intros Hc. apply (register_reject _ _ _ e); [done|].
    unfold can_register. rewrite Hc. apply andb_false_r.
  - intros Hout. destruct (can_register userId e) eqn:E.
    + rewrite (register_accept _ _ _ e) by done.
      apply can_register_iff in E as [_ E]. done.
    + rewrite (register_reject _ _ _ e) by done. split; [done|].
      intros Hc. assert (has_room userId e) as Hr by done.
      apply can_register_iff in Hr. congruence.
Qed.

Lemma register_needs_capacity_witness :
  ({[ ev1 := open_event ]} : Collection) !! ev1 = Some open_event
  ∧ capacity open_event = None
  ∧ register carol ev1 {[ ev1 := open_event ]}
    = ({[ ev1 := open_event ]}, rejected).
Proof.
  split_and!; [reflexivity|reflexivity|].
  apply (register_needs_capacity carol ev1 {[ ev1 := open_event ]} open_event);
    reflexivity.
Defined.

(** ** Unregister *)

Lemma length_pull_member (u : ObjectId) (arr : list ObjectId) :
  NoDup arr → u ∈ arr → S (length (pull u arr)) = length arr.
Proof.
  unfold pull. induction arr as [|a arr IH]; intros Hnd Hin.
  - by apply elem_of_nil in Hin.
  - apply NoDup_cons in Hnd as [Ha Hnd].
    destruct (decide (a = u)) as [->|Hne].
    + rewrite filter_cons_False by naive_solver.
      fold (pull u arr). by rewrite pull_absent.
    + rewrite filter_cons_True by done. cbn.
      apply elem_of_cons in Hin as [->|Hin]; [done|]. by rewrite IH.
Qed.

Lemma elem_of_pull (u x : ObjectId) (arr : list ObjectId) :
  x ∈ pull u arr ↔ x ≠ u ∧ x ∈ arr.
Proof. unfold pull. by rewrite list_elem_of_filter. Qed.

(** C6. On an existing event [unregister] answers 200 with the number of
    attendees that remain after every occurrence of the user was removed:
    one less when the user was registered (once), the same number and the
    same collection when the user was not.  The answer is 404 exactly when no
    event has the [_id].  A repeated call answers as the first one did and
    leaves the collection as the first one left it. *)
Theorem unregister_semantics (userId eventId : ObjectId) (db : Collection) :
  (∀ e, db !! eventId = Some e →
     unregister userId eventId db
     = (<[eventId := set_attendees (pull userId (attendees e)) e]> db,
        unregistered (length (pull userId (attendees e))))
     ∧ (∀ x, x ∈ pull userId (attendees e) ↔ x ≠ userId ∧ x ∈ attendees e)
     ∧ (NoDup (attendees e) → userId ∈ attendees e →
        S (length (pull userId (attendees e))) = length (attendees e))
     ∧ (userId ∉ attendees e →
        unregister userId eventId db
        = (db, unregistered (length (attendees e)))))
  ∧ ((unregister userId eventId db).2 = not_found ↔ db !! eventId = None)
  ∧ unregister userId eventId (unregister userId eventId db).1
    = unregister userId eventId db.
Proof.
  split_and!.
  - intros e He. split_and!.
    + by apply unregister_found.
    + intros x. apply elem_of_pull.
    + apply length_pull_member.
    + intros Hout. rewrite (unregister_found _ _ _ e) by done.
      rewrite pull_absent by done.
      by rewrite set_attendees_same, insert_id.
  - destruct (db !! eventId) as [e|] eqn:He.
    + rewrite (unregister_found _ _ _ e) by done. done.
    + by rewrite unregister_missing.
  - destruct (db !! eventId) as [e|] eqn:He.
    + rewrite (unregister_found userId eventId db e) by done. cbn [fst].
      rewrite (unregister_found _ _ _ (set_attendees (pull userId (attendees e)) e))
        by apply lookup_insert_eq.
      rewrite attendees_set, set_attendees_twice, insert_insert_eq.
      by rewrite (pull_absent userId (pull userId (attendees e)))
        by apply pull_removes.
    + rewrite (unregister_missing userId eventId db) by done. cbn.
      by rewrite unregister_missing.
Qed.

(** ** Register, unregister, register *)

(** C7. When the user is not registered and the number of attendees is below
    the capacity, register, unregister and register again for the same user
    and event succeed in turn.  The first registration stores the user as the
    last attendee of the event, the unregistration restores the collection,
    and the second registration stores the user again, yielding the same
    collection as the first. *)
Theorem no_permanent_lockout
    (userId eventId : ObjectId) (db : Collection) (e : Event) :
  db !! eventId = Some e →
  has_room userId e →
  let '(db1, r1) := register userId eventId db in
  let '(db2, r2) := unregister userId eventId db1 in
  let '(db3, r3) := register userId eventId db2 in
  r1 = registered (S (length (attendees e)))
  ∧ r2 = unregistered (length (attendees e))
  ∧ r3 = registered (S (length (attendees e)))
  ∧ db2 = db ∧ db3 = db1
  ∧ db1 = <[eventId := set_attendees (attendees e ++ [userId]) e]> db
  ∧ db1 !! eventId = Some (set_attendees (attendees e ++ [userId]) e)
  ∧ db3 !! eventId = Some (set_attendees (attendees e ++ [userId]) e)
  ∧ db2 !! eventId = Some e.
Proof.
  intros He Hr. pose proof Hr as [Hout _].
  apply can_register_iff in Hr.
  rewrite (register_accept _ _ _ e) by done.
  rewrite (unregister_found _ _ _ (set_attendees (attendees e ++ [userId]) e))
    by apply lookup_insert_eq.
  rewrite attendees_set, set_attendees_twice, insert_insert_eq.
  rewrite pull_snoc, pull_absent by done.
  rewrite set_attendees_same, insert_id by done.
  rewrite (register_accept _ _ _ e) by done.
  rewrite lookup_insert_eq. done.
Qed.

Lemma no_permanent_lockout_witness :
  one_event !! ev1 = Some meetup
  ∧ has_room bob meetup
  ∧ let '(db1, r1) := register bob ev1 one_event in
    let '(db2, r2) := unregister bob ev1 db1 in
    let '(db3, r3) := register bob ev1 db2 in
    r1 = registered 1 ∧ r2 = unregistered 0 ∧ r3 = registered 1
    ∧ db2 = one_event ∧ db3 = db1
    ∧ db1 = <[ev1 := set_attendees [bob] meetup]> one_event
    ∧ db1 !! ev1 = Some (set_attendees [bob] meetup)
    ∧ db3 !! ev1 = Some (set_attendees [bob] meetup)
    ∧ db2 !! ev1 = Some meetup.
Proof.
  assert (Hroom : has_room bob meetup).
  { split; [by intros ?%elem_of_nil|]. exists (2 # 1)%Q. split; reflexivity. }
  split_and!; [reflexivity|exact Hroom|].
  exact (no_permanent_lockout bob ev1 one_event meetup eq_refl Hroom).
Defined.

(** ** Frame *)

Lemma only_attendees_of_refl (eventId : ObjectId) (db : Collection) :
  only_attendees_of eventId db db.
Proof.
  intros id. destruct (db !! id) as [e|]; [|done].
  exists e. by unfold same_metadata.
Qed.

Lemma only_attendees_of_insert
    (eventId : ObjectId) (db : Collection) (e : Event) (arr : list ObjectId) :
  db !! eventId = Some e →
  only_attendees_of eventId db (<[eventId := set_attendees arr e]> db).
Proof.
  intros He id. destruct (decide (id = eventId)) as [->|Hne].
  - rewrite He, lookup_insert_eq. eexists. split; [done|].
    by unfold same_metadata.
  - rewrite lookup_insert_ne by done.
    destruct (db !! id) as [e0|]; [|done].
    exists e0. by unfold same_metadata.
Qed.

Lemma register_frame (userId eventId : ObjectId) (db : Collection) :
  only_attendees_of eventId db (register userId eventId db).1.
Proof.
  destruct (db !! eventId) as [e|] eqn:He.
  - destruct (can_register userId e) eqn:E.
    + rewrite (register_accept _ _ _ e) by done.
      by apply only_attendees_of_insert.
    + rewrite (register_reject _ _ _ e) by done.
      apply only_attendees_of_refl.
  - rewrite register_missing by done. apply only_attendees_of_refl.
Qed.

Lemma unregister_frame (userId eventId : ObjectId) (db : Collection) :
  only_attendees_of eventId db (unregister userId eventId db).1.
Proof.
  destruct (db !! eventId) as [e|] eqn:He.
  - rewrite (unregister_found _ _ _ e) by done.
    by apply only_attendees_of_insert.
  - rewrite unregister_missing by done. apply only_attendees_of_refl.
Qed.

(** C10. [register] and [unregister] change at most the [attendees] of the
    event they name: its other fields, every other event and the set of
    events are as before, whether the call succeeds or not. *)
Theorem ledger_frame (userId eventId : ObjectId) (db : Collection) :
  only_attendees_of eventId db (register userId eventId db).1
  ∧ only_attendees_of eventId db (unregister userId eventId db).1.
Proof. split; [apply register_frame|apply unregister_frame]. Qed.

(** ** Owner-only update and delete *)

Lemma create_lookup_old
    (newId userId : ObjectId) (body : Body) (file : option string)
    (db : Collection) (id : ObjectId) (e : Event) :
  db !! id = Some e → (create newId userId body file db).1 !! id = Some e.
Proof.
  intros He. unfold create, save.
  destruct (validate _) as [e0|]; [|done]. cbn.
  case_bool_decide as Hnew; [done|]. cbn.
  rewrite lookup_insert_ne; [done|].
  intros ->. apply Hnew. by eexists.
Qed.

(** C9. An update or a delete of an existing event by a requester who is not
    its [createdBy] is answered 403 and changes nothing.  Whatever the
    request, an event keeps its capacity unless the request is an update sent
    by its owner, and stays in the collection unless the request is a delete
    sent by its owner. *)
Theorem owner_only_mutation (db : Collection) (id : ObjectId) (e : Event) :
  db !! id = Some e →
  (∀ userId body file, userId ≠ createdBy e →
     update userId id body file db = (db, unauthorized)
     ∧ deleteEvent userId id db = (db, unauthorized))
  ∧ (∀ r, match (handle r db).1 !! id with
          | Some e' => capacity e' = capacity e
                       ∨ ∃ body file, r = Update (createdBy e) id body file
          | None => r = Delete (createdBy e) id
          end).
Proof.
  intros He. split.
  - intros userId body file Hne. unfold update, deleteEvent, findById.
    rewrite He. unfold toString.
    by rewrite bool_decide_eq_true_2 by done.
  - intros [newId userId body file|userId eventId|userId eventId
           |userId eventId body file|userId eventId]; cbn [handle].
    + rewrite (create_lookup_old _ _ _ _ _ _ e) by done. by left.
    + pose proof (register_frame userId eventId db id) as H.
      rewrite He in H. destruct H as (e' & -> & Hm & _).
      left. apply Hm.
    + pose proof (unregister_frame userId eventId db id) as H.
      rewrite He in H. destruct H as (e' & -> & Hm & _).
      left. apply Hm.
    + unfold update, findById.
      destruct (db !! eventId) as [e0|] eqn:He0; cbn; [|rewrite He; by left].
      unfold toString. case_bool_decide as Hown; cbn; [rewrite He; by left|].
      destruct (save _ _ _ _) as [[e1 db1]|] eqn:Hs; cbn; [|rewrite He; by left].
      unfold save in Hs. destruct (validate _) as [e2|]; [|done].
      cbn in Hs. injection Hs as <- <-.
      destruct (decide (eventId = id)) as [->|Hid].
      * rewrite lookup_insert_eq. right.
        assert (e0 = e) as -> by congruence.
        subst userId. by eexists _, _.
      * rewrite lookup_insert_ne by done. rewrite He. by left.
    + unfold deleteEvent, findById.
      destruct (db !! eventId) as [e0|] eqn:He0; cbn; [|rewrite He; by left].
      unfold toString. case_bool_decide as Hown; cbn; [rewrite He; by left|].
      destruct (decide (eventId = id)) as [->|Hid].
      * rewrite lookup_delete_eq.
        assert (e0 = e) as -> by congruence.
        by subst userId.
      * rewrite lookup_delete_ne by done. rewrite He. by left.
Qed.

Lemma owner_only_mutation_witness :
  one_event !! ev1 = Some meetup
  ∧ bob ≠ createdBy meetup
  ∧ update bob ev1 smaller_hall None one_event = (one_event, unauthorized)
  ∧ deleteEvent bob ev1 one_event = (one_event, unauthorized).
Proof.
  assert (Hne : bob ≠ createdBy meetup) by discriminate.
  split_and!; [reflexivity|exact Hne|..];
    apply (proj1 (owner_only_mutation one_event ev1 meetup eq_refl)
             bob smaller_hall None Hne).
Defined.

(** ** No duplicate attendee *)

Lemma validate_attendees (d : Document) (e : Event) :
  validate d = Some e →
  attendees e = doc_attendees d ∧ createdBy e = doc_createdBy d
  ∧ optional_number (doc_capacity d) = Some (capacity e).
Proof.
  unfold validate. intros H.
  destruct (required_string (doc_title d)); [|done].
  destruct (required_string (doc_description d)); [|done].
  destruct (required_date (doc_date d)); [|done].
  destruct (required_string (doc_location d)); [|done].
  destruct (optional_number (doc_capacity d)); [|done].
  cbn in H. by injection H as <-.
Qed.

(** What a request does to one event: the shape shared by the invariants. *)
Lemma handle_lookup (r : Request) (db : Collection) (id : ObjectId) (e' : Event) :
  (handle r db).1 !! id = Some e' →
  db !! id = Some e'
  ∨ (∃ e userId, db !! id = Some e ∧ r = Register userId id
       ∧ has_room userId e ∧ e' = set_attendees (attendees e ++ [userId]) e)
  ∨ (∃ e userId, db !! id = Some e ∧ r = Unregister userId id
       ∧ e' = set_attendees (pull userId (attendees e)) e)
  ∨ (∃ userId body file, db !! id = None ∧ r = Create id userId body file
       ∧ attendees e' = []
       ∧ optional_number (cast (body_capacity body)) = Some (capacity e'))
  ∨ (∃ e body file, db !! id = Some e ∧ r = Update (createdBy e) id body file
       ∧ attendees e' = attendees e
       ∧ optional_number
           (or_else (body_capacity body) (stored_number (capacity e)))
         = Some (capacity e')).
Proof.
  destruct r as [newId userId body file|userId eventId|userId eventId
                |userId eventId body file|userId eventId]; cbn [handle].
  - unfold create, save. destruct (validate _) as [e0|] eqn:Hv; [|by left].
    cbn. case_bool_decide as Hnew; cbn; [by left|].
    destruct (decide (newId = id)) as [->|Hid].
    + rewrite lookup_insert_eq. intros [= ->].
      apply validate_attendees in Hv as (Ha & _ & Hc). cbn in Ha, Hc.
      do 3 right. left. exists userId, body, file. split_and!; try done.
      destruct (db !! id) eqn:E; [|done]. exfalso. apply Hnew. by eexists.
    + rewrite lookup_insert_ne by done. by left.
  - destruct (db !! eventId) as [e|] eqn:He.
    + destruct (can_register userId e) eqn:E.
      * rewrite (register_accept _ _ _ e) by done. cbn.
        destruct (decide (eventId = id)) as [->|Hid].
        -- rewrite lookup_insert_eq. intros [= <-].
           right. left. exists e, userId.
           by rewrite <- can_register_iff.
        -- rewrite lookup_insert_ne by done. by left.
      * rewrite (register_reject _ _ _ e) by done. by left.
    + rewrite register_missing by done. by left.
  - destruct (db !! eventId) as [e|] eqn:He.
    + rewrite (unregister_found _ _ _ e) by done. cbn.
      destruct (decide (eventId = id)) as [->|Hid].
      * rewrite lookup_insert_eq. intros [= <-].
        do 2 right. left. by exists e, userId.
      * rewrite lookup_insert_ne by done. by left.
    + rewrite unregister_missing by done. by left.
  - unfold update, findById.
    destruct (db !! eventId) as [e|] eqn:He; [|by left].
    unfold toString. case_bool_decide as Hown; [by left|].
    destruct (save _ _ _ _) as [[e1 db1]|] eqn:Hs; [|by left].
    unfold save in Hs. destruct (validate _) as [e2|] eqn:Hv; [|done].
    cbn in Hs. injection Hs as <- <-. cbn.
    destruct (decide (eventId = id)) as [->|Hid].
    + rewrite lookup_insert_eq. intros [= <-].
      apply validate_attendees in Hv as (Ha & _ & Hc). cbn in Ha, Hc.
      subst userId.
      do 4 right. by exists e, body, file.
    + rewrite lookup_insert_ne by done. by left.
  - unfold deleteEvent, findById.
    destruct (db !! eventId) as [e|] eqn:He; [|by left].
    unfold toString. case_bool_decide as Hown; [by left|]. cbn.
    destruct (decide (eventId = id)) as [->|Hid].
    + by rewrite lookup_delete_eq.
    + rewrite lookup_delete_ne by done. by left.
Qed.

Lemma serve_cons (r : Request) (rs : list Request) (db : Collection) :
  serve (r :: rs) db
  = ((serve rs (handle r db).1).1, (handle r db).2 :: (serve rs (handle r db).1).2).
Proof.
  cbn [serve]. destruct (handle r db) as [db1 res]. cbn [fst snd].
  by destruct (serve rs db1) as [db2 ress].
Qed.

Lemma handle_no_duplicates (r : Request) (db : Collection) :
  no_duplicates db → no_duplicates (handle r db).1.
Proof.
  intros Hdb id e' He'.
  apply handle_lookup in He'
    as [H|[(e & u & He & _ & [Hout _] & ->)|[(e & u & He & _ & ->)
       |[(u & b & f & _ & _ & Ha & _)|(e & b & f & He & _ & Ha & _)]]]].
  - by apply (Hdb id).
  - cbn. apply NoDup_app. split_and!; [by apply (Hdb id)| |apply NoDup_singleton].
    intros x Hx ->%list_elem_of_singleton. done.
  - cbn. apply NoDup_pull. by apply (Hdb id).
  - rewrite Ha. apply NoDup_nil_2.
  - rewrite Ha. by apply (Hdb id).
Qed.

Lemma serve_no_duplicates (rs : list Request) (db : Collection) :
  no_duplicates db → no_duplicates (serve rs db).1.
Proof.
  revert db. induction rs as [|r rs IH]; intros db Hdb; [done|].
  rewrite serve_cons. cbn. by apply IH, handle_no_duplicates.
Qed.

(** C3. If no event lists a user twice, then after any sequence of requests
    (registrations, unregistrations, and the others as well) no event lists a
    user twice; and a registration by a user who is already an attendee is
    rejected and leaves the collection as it is. *)
Theorem no_duplicate_attendees (rs : list Request) (db : Collection) :
  no_duplicates db →
  no_duplicates (serve rs db).1
  ∧ (∀ userId eventId e,
       (serve rs db).1 !! eventId = Some e → userId ∈ attendees e →
       register userId eventId (serve rs db).1 = ((serve rs db).1, rejected)).
Proof.
  intros Hdb. split; [by apply serve_no_duplicates|].
  intros userId eventId e He Hin.
  apply (register_reject _ _ _ e); [done|].
  unfold can_register. apply andb_false_iff. left.
  destruct (ne userId (attendees e)) eqn:E; [|done].
  by apply ne_iff in E.
Qed.

Lemma no_duplicates_empty : no_duplicates ∅.
Proof. intros id e H. by rewrite lookup_empty in H. Qed.

Lemma no_duplicate_attendees_witness :
  no_duplicates ∅
  ∧ no_duplicates
      (serve [Create ev1 alice new_meetup None; Register bob ev1;
              Register bob ev1] ∅).1.
Proof.
  split; [exact no_duplicates_empty|].
  apply (no_duplicate_attendees
           [Create ev1 alice new_meetup None; Register bob ev1;
            Register bob ev1] ∅ no_duplicates_empty).
Defined.

(** ** The capacity bound *)

(** C1 as the spec states it fails: the owner lowers the capacity of an event
    with two attendees to one. *)
Lemma update_breaks_capacity_bound :
  ∃ e, (serve [Create ev1 alice new_meetup None; Register bob ev1;
               Register carol ev1; Update alice ev1 smaller_hall None] ∅).1
       !! ev1 = Some e
       ∧ capacity e = Some (1 # 1)%Q
       ∧ attendees e = [bob; carol]
       ∧ ¬ within_capacity e.
Proof.
  eexists. split_and!; [vm_compute; reflexivity|reflexivity|reflexivity|].
  unfold within_capacity. cbn. intros H. by vm_compute in H.
Qed.

Lemma is_integer_eq (q : Q) :
  is_integer q = true → (q == inject_Z (Qfloor q))%Q.
Proof. apply Qeq_bool_iff. Qed.

Lemma size_of_snoc_le (arr : list ObjectId) (u : ObjectId) (c : Q) :
  is_integer c = true → (size_of arr < c)%Q → (size_of (arr ++ [u]) <= c)%Q.
Proof.
  intros Hi%is_integer_eq Hlt. unfold size_of in *.
  rewrite Hi in Hlt |- *. rewrite <- Zlt_Qlt in Hlt. rewrite <- Zle_Qle.
  rewrite length_app. cbn. lia.
Qed.

Lemma size_of_pull_le (arr : list ObjectId) (u : ObjectId) (c : Q) :
  (size_of arr <= c)%Q → (size_of (pull u arr) <= c)%Q.
Proof.
  intros H. apply Qle_trans with (size_of arr); [|done].
  unfold size_of. rewrite <- Zle_Qle.
  pose proof (length_pull u arr). lia.
Qed.

Lemma fits_bounded (n : nat) (c : Cast Q) (e' : Event) :
  fits n c = true → optional_number c = Some (capacity e') →
  length (attendees e') = n → bounded e'.
Proof.
  intros Hf Hc Hn. unfold bounded.
  destruct c as [| |q|]; cbn in Hc;
    [by injection Hc as <-|by injection Hc as <-| |done].
  injection Hc as <-. cbn in Hf.
  apply andb_true_iff in Hf as [Hi Hle]. split; [done|].
  unfold size_of. rewrite Hn. by apply Qle_bool_iff.
Qed.

Lemma handle_bounded (r : Request) (db : Collection) :
  all_bounded db → keeps_bound r db = true → all_bounded (handle r db).1.
Proof.
  intros Hdb Hk id e' He'.
  apply handle_lookup in He'
    as [H|[(e & u & He & _ & [_ (c & Hc & Hlt)] & ->)|[(e & u & He & _ & ->)
       |[(u & b & f & _ & -> & Ha & Hc)|(e & b & f & He & -> & Ha & Hc)]]]].
  - by apply (Hdb id).
  - specialize (Hdb id e He). unfold bounded in *. cbn. rewrite Hc in *.
    destruct Hdb as [Hi _]. split; [done|]. by apply size_of_snoc_le.
  - specialize (Hdb id e He). unfold bounded in *. cbn.
    destruct (capacity e) as [c|]; [|done].
    destruct Hdb as [Hi Hle]. split; [done|]. by apply size_of_pull_le.
  - cbn in Hk. apply (fits_bounded 0 (cast (body_capacity b))); [done|done|].
    by rewrite Ha.
  - cbn in Hk. rewrite He in Hk. unfold or_else in Hc.
    destruct (truthy (body_capacity b)).
    + apply (fits_bounded (length (attendees e)) (cast (body_capacity b)));
        [exact Hk|exact Hc|by rewrite Ha].
    + specialize (Hdb id e He). unfold bounded in *. rewrite Ha.
      destruct (capacity e) as [c|]; cbn in Hc; by injection Hc as <-.
Qed.

Lemma serve_bounded (rs : list Request) (db : Collection) :
  all_bounded db → guarded rs db = true → all_bounded (serve rs db).1.
Proof.
  revert db. induction rs as [|r rs IH]; intros db Hdb Hg; [done|].
  cbn in Hg. apply andb_true_iff in Hg as [Hk Hg].
  rewrite serve_cons. cbn. by apply IH; [apply handle_bounded|].
Qed.

(** C1, amended.  Take a collection in which every capacity that is set is an
    integer and bounds the attendees of its event (the empty collection is
    one), and any sequence of create, register, unregister, update and delete
    requests in which every create carries a capacity that is absent or a
    non-negative integer, and every update carries a capacity that is falsy,
    absent, or an integer not below the number of attendees of the event at
    that moment.  Afterwards every event whose capacity is set has at most
    that many attendees. *)
Theorem capacity_bound (rs : list Request) (db : Collection) :
  all_bounded db →
  guarded rs db = true →
  ∀ id e, (serve rs db).1 !! id = Some e → within_capacity e.
Proof.
  intros Hdb Hg id e He.
  pose proof (serve_bounded rs db Hdb Hg id e He) as Hb.
  unfold bounded in Hb. unfold within_capacity.
  destruct (capacity e); [apply Hb|done].
Qed.

Lemma all_bounded_empty : all_bounded ∅.
Proof. intros id e H. by rewrite lookup_empty in H. Qed.

Lemma capacity_bound_witness :
  all_bounded ∅
  ∧ guarded [Create ev1 alice new_meetup None; Register bob ev1;
             Register carol ev1; Update alice ev1 larger_hall None;
             Unregister bob ev1] ∅ = true
  ∧ ∀ id e,
      (serve [Create ev1 alice new_meetup None; Register bob ev1;
              Register carol ev1; Update alice ev1 larger_hall None;
              Unregister bob ev1] ∅).1 !! id = Some e →
      within_capacity e.
Proof.
  split_and!; [exact all_bounded_empty|reflexivity|].
  apply (capacity_bound
           [Create ev1 alice new_meetup None; Register bob ev1;
            Register carol ev1; Update alice ev1 larger_hall None;
            Unregister bob ev1] ∅ all_bounded_empty).
  reflexivity.
Defined.

(** The bound needs the integer: with capacity 5/2 and two attendees the
    filter still finds room, and a third attendee is admitted. *)
Example fractional_capacity_overshoot :
  let e := set_attendees [alice; bob]
             {| title := "Meetup"; description := "Monthly meetup";
                date := 1767225600000; location := "Hall A";
                capacity := Some (5 # 2); image := None;
                attendees := []; createdBy := alice |} in
  (register carol ev1 {[ ev1 := e ]}).2 = registered 3.
Proof. reflexivity. Qed.

(** ** Cardinality of a run of registrations *)

Lemma lt_capacity_nat (n C : nat) :
  lt_capacity (inject_Z (Z.of_nat n)) (Some (inject_Z (Z.of_nat C))) = true
  ↔ (n < C)%nat.
Proof.
  cbn [lt_capacity]. rewrite Qlt_bool_iff, <- Zlt_Qlt. lia.
Qed.

Lemma distinct_NoDup (arr : list ObjectId) : NoDup arr → distinct arr = length arr.
Proof. apply size_list_to_set. Qed.

Lemma distinct_app_ge (arr us : list ObjectId) :
  NoDup arr → (length arr ≤ distinct (arr ++ us))%nat.
Proof.
  intros H. rewrite <- (distinct_NoDup arr) by done. unfold distinct.
  apply subseteq_size. intros x.
  rewrite !elem_of_list_to_set, elem_of_app. by left.
Qed.

Lemma distinct_repeat (arr us : list ObjectId) (u : ObjectId) :
  u ∈ arr → distinct (arr ++ u :: us) = distinct (arr ++ us).
Proof.
  intros H. unfold distinct. f_equal. apply set_eq. intros x.
  rewrite !elem_of_list_to_set, !elem_of_app, elem_of_cons.
  split; [intros [?|[->|?]]|intros [?|?]]; auto.
Qed.

Lemma count_if_cons (p : Response → bool) (r : Response) (rs : list Response) :
  count_if p (r :: rs) = ((if p r then 1 else 0) + count_if p rs)%nat.
Proof.
  unfold count_if. destruct (p r) eqn:E.
  - by rewrite filter_cons_True.
  - rewrite filter_cons_False; [done|]. by rewrite E.
Qed.

Lemma registrations_count (eventId : ObjectId) (C : nat) (us : list ObjectId) :
  ∀ (db : Collection) (e : Event),
    db !! eventId = Some e →
    capacity e = Some (inject_Z (Z.of_nat C)) →
    NoDup (attendees e) →
    (length (attendees e) ≤ C)%nat →
    ∃ e', (serve (registrations eventId us) db).1 !! eventId = Some e'
          ∧ length (attendees e') = C `min` distinct (attendees e ++ us)
          ∧ (count_if is_success (serve (registrations eventId us) db).2
             + length (attendees e))%nat = length (attendees e')
          ∧ (count_if is_success (serve (registrations eventId us) db).2
             + count_if is_rejection (serve (registrations eventId us) db).2)%nat
            = length us.
Proof.
  induction us as [|u us IH]; intros db e He Hc Hnd Hle.
  - exists e. cbn. rewrite app_nil_r, distinct_NoDup by done.
    split_and!; [done|lia|done|done].
  - cbn [registrations map]. fold (registrations eventId us).
    rewrite serve_cons. cbn [fst snd handle]. rewrite !count_if_cons.
    destruct (can_register u e) eqn:E.
    + rewrite (register_accept _ _ _ e) by done. cbn [fst snd].
      apply andb_true_iff in E as [Hout%ne_iff Hlt].
      unfold size_of in Hlt. rewrite Hc in Hlt. apply lt_capacity_nat in Hlt.
      destruct (IH (<[eventId := set_attendees (attendees e ++ [u]) e]> db)
                  (set_attendees (attendees e ++ [u]) e))
        as (e' & He' & Hlen & Hok & Hall).
      * apply lookup_insert_eq.
      * done.
      * cbn. apply NoDup_app. split_and!; [done| |apply NoDup_singleton].
        intros x Hx ->%list_elem_of_singleton. done.
      * cbn. rewrite length_app. cbn. lia.
      * exists e'. cbn [attendees set_attendees] in Hlen, Hok.
        rewrite <- app_assoc in Hlen. rewrite length_app in Hok. cbn in *.
        split_and!; [done|done|lia|lia].
    + rewrite (register_reject _ _ _ e) by done. cbn [fst snd].
      destruct (IH db e He Hc Hnd Hle) as (e' & He' & Hlen & Hok & Hall).
      exists e'. cbn. split_and!; [done| |done|lia].
      apply andb_false_iff in E as [Hin|Hfull].
      * destruct (decide (u ∈ attendees e)) as [Hin'|Hout].
        -- by rewrite distinct_repeat.
        -- apply ne_iff in Hout. congruence.
      * unfold size_of in Hfull. rewrite Hc in Hfull.
        assert (¬ (length (attendees e) < C)%nat) as Hge.
        { intros Hlt%lt_capacity_nat. congruence. }
        pose proof (distinct_app_ge (attendees e) us Hnd).
        pose proof (distinct_app_ge (attendees e) (u :: us) Hnd).
        lia.
Qed.

(** C4. On an event that has no attendee yet and whose capacity is the
    integer [C], a run of [register] calls by the users [us], in any order
    and with any repetitions, ends with min(C, number of distinct users)
    attendees; that many of the calls are answered with the success, and all
    the others with the rejection. *)
Theorem register_cardinality
    (eventId : ObjectId) (us : list ObjectId) (db : Collection)
    (e : Event) (C : nat) :
  db !! eventId = Some e →
  attendees e = [] →
  capacity e = Some (inject_Z (Z.of_nat C)) →
  ∃ e', (serve (registrations eventId us) db).1 !! eventId = Some e'
        ∧ length (attendees e') = C `min` distinct us
        ∧ count_if is_success (serve (registrations eventId us) db).2
          = C `min` distinct us
        ∧ count_if is_rejection (serve (registrations eventId us) db).2
          = (length us - C `min` distinct us)%nat.
Proof.
  intros He Ha Hc.
  destruct (registrations_count eventId C us db e He Hc)
    as (e' & He' & Hlen & Hok & Hall).
  - rewrite Ha. apply NoDup_nil_2.
  - rewrite Ha. cbn. lia.
  - rewrite Ha in Hlen, Hok. rewrite app_nil_l in Hlen.
    cbn [length] in Hok.
    exists e'. split_and!; [done|done|lia|lia].
Qed.

Lemma register_cardinality_witness :
  one_event !! ev1 = Some meetup
  ∧ attendees meetup = []
  ∧ capacity meetup = Some (inject_Z (Z.of_nat 2))
  ∧ ∃ e', (serve (registrations ev1 [bob; carol; bob; alice]) one_event).1
          !! ev1 = Some e'
          ∧ length (attendees e') = 2 `min` distinct [bob; carol; bob; alice]
          ∧ count_if is_success
              (serve (registrations ev1 [bob; carol; bob; alice]) one_event).2
            = 2 `min` distinct [bob; carol; bob; alice]
          ∧ count_if is_rejection
              (serve (registrations ev1 [bob; carol; bob; alice]) one_event).2
            = (4 - 2 `min` distinct [bob; carol; bob; alice])%nat.
Proof.
  split_and!; [reflexivity|reflexivity|reflexivity|].
  apply (register_cardinality ev1 [bob; carol; bob; alice] one_event meetup 2);
    reflexivity.
Defined.

(** * Further properties of the handlers *)

(** ** Create and read *)

Lemma create_unfold
    (newId userId : ObjectId) (body : Body) (file : option string)
    (db : Collection) :
  create newId userId body file db
  = match validate
            {| doc_title := cast (body_title body);
               doc_description := cast (body_description body);
               doc_date := cast (body_date body);
               doc_location := cast (body_location body);
               doc_capacity := cast (body_capacity body);
               doc_image := file;
               doc_attendees := [];
               doc_createdBy := userId |} with
    | Some e =>
        if bool_decide (is_Some (db !! newId)) then (db, creation_failed)
        else (<[newId := e]> db, send created (Doc e))
    | None => (db, creation_failed)
    end.
Proof.
  unfold create, save. destruct (validate _) as [e|]; [|done]. cbn.
  by case_bool_decide.
Qed.

(** X1. A create whose required fields cast to non-empty values, whose
    capacity casts without error and whose [_id] is new, stores under that
    [_id] an event with those values, the requester as [createdBy], the
    uploaded file name as image and no attendee, and answers 201 with it; a
    read of that [_id] then answers 200 with the same document. *)
Theorem create_stores_event
    (newId userId : ObjectId) (body : Body) (file : option string)
    (db : Collection) (t ds l : string) (dt : Z) (c : option Q) :
  db !! newId = None →
  cast (body_title body) = Value t → t ≠ "" →
  cast (body_description body) = Value ds → ds ≠ "" →
  cast (body_date body) = Value dt →
  cast (body_location body) = Value l → l ≠ "" →
  optional_number (cast (body_capacity body)) = Some c →
  let e := {| title := t; description := ds; date := dt; location := l;
              capacity := c; image := file; attendees := [];
              createdBy := userId |} in
  create newId userId body file db = (<[newId := e]> db, send 201 (Doc e))
  ∧ getEvent newId (create newId userId body file db).1
    = (<[newId := e]> db, send 200 (Doc e)).
Proof.
  intros Hnew Ht Hte Hds Hdse Hdt Hl Hle Hc e.
  assert (Hcreate : create newId userId body file db
                    = (<[newId := e]> db, send 201 (Doc e))).
  { rewrite create_unfold. unfold validate. cbn.
    rewrite Ht, Hds, Hdt, Hl, Hc. cbn.
    rewrite !bool_decide_eq_false_2 by done. cbn.
    rewrite bool_decide_eq_false_2; [done|].
    rewrite Hnew. by intros [? ?]. }
  split; [done|]. rewrite Hcreate. cbn [fst].
  unfold getEvent, findById. by rewrite lookup_insert_eq.
Qed.

Lemma create_stores_event_witness :
  create ev2 bob new_meetup (Some "1767225600000.png") one_event
  = (<[ev2 := {| title := "Meetup"; description := "Monthly meetup";
                 date := 1767225600000; location := "Hall A";
                 capacity := Some (2 # 1);
                 image := Some "1767225600000.png";
                 attendees := []; createdBy := bob |}]> one_event,
     send 201 (Doc {| title := "Meetup"; description := "Monthly meetup";
                      date := 1767225600000; location := "Hall A";
                      capacity := Some (2 # 1);
                      image := Some "1767225600000.png";
                      attendees := []; createdBy := bob |})).
Proof.
  apply (create_stores_event ev2 bob new_meetup (Some "1767225600000.png")
           one_event "Meetup" "Monthly meetup" "Hall A" 1767225600000
           (Some (2 # 1))); done.
Defined.

(** X2. A create is answered 500 exactly when a required field is missing,
    null, uncastable or an empty text, or the capacity cannot be cast, or the
    [_id] is taken; then nothing is stored.  Otherwise the answer is 201. *)
Theorem create_fails_iff
    (newId userId : ObjectId) (body : Body) (file : option string)
    (db : Collection) :
  ((create newId userId body file db).2 = creation_failed
   ↔ required_string (cast (body_title body)) = None
     ∨ required_string (cast (body_description body)) = None
     ∨ required_date (cast (body_date body)) = None
     ∨ required_string (cast (body_location body)) = None
     ∨ cast (body_capacity body) = CastError
     ∨ is_Some (db !! newId))
  ∧ ((create newId userId body file db).2 = creation_failed →
     (create newId userId body file db).1 = db)
  ∧ ((create newId userId body file db).2 ≠ creation_failed →
     status (create newId userId body file db).2 = 201).
Proof.
  rewrite create_unfold. unfold validate. cbn.
  destruct (required_string (cast (body_title body))) as [t|]; cbn;
    [|split_and!; [split; auto|done|done]].
  destruct (required_string (cast (body_description body))) as [ds|]; cbn;
    [|split_and!; [split; auto|done|done]].
  destruct (required_date (cast (body_date body))) as [dt|]; cbn;
    [|split_and!; [split; auto|done|done]].
  destruct (required_string (cast (body_location body))) as [l|]; cbn;
    [|split_and!; [split; auto|done|done]].
  destruct (cast (body_capacity body)) as [| |q|] eqn:Hc; cbn;
    try (split_and!; [split; auto 10|done|done]);
    case_bool_decide as Hnew; cbn;
    (split_and!; [split; [auto 10|]|done|done]);
    try done; intros [?|[?|[?|[?|[?|?]]]]]; done.
Qed.

(** X3. A create never overwrites or removes an event: every stored event is
    still there unchanged, and no [_id] other than the new one appears. *)
Theorem create_frame
    (newId userId : ObjectId) (body : Body) (file : option string)
    (db : Collection) :
  (∀ id e, db !! id = Some e →
           (create newId userId body file db).1 !! id = Some e)
  ∧ (∀ id, id ≠ newId →
           (create newId userId body file db).1 !! id = db !! id).
Proof.
  split.
  - intros id e He. rewrite create_unfold.
    destruct (validate _) as [e0|]; [|done].
    case_bool_decide as Hnew; [done|]. cbn.
    rewrite lookup_insert_ne; [done|]. intros ->. apply Hnew. by eexists.
  - intros id Hne. rewrite create_unfold.
    destruct (validate _) as [e0|]; [|done].
    case_bool_decide as Hnew; [done|]. cbn. by rewrite lookup_insert_ne.
Qed.

(** ** Update *)

Lemma update_by_owner
    (eventId : ObjectId) (body : Body) (file : option string)
    (db : Collection) (e : Event) :
  db !! eventId = Some e →
  update (createdBy e) eventId body file db
  = match validate
            {| doc_title := or_else (body_title body) (Value (title e));
               doc_description :=
                 or_else (body_description body) (Value (description e));
               doc_date := or_else (body_date body) (Value (date e));
               doc_location :=
                 or_else (body_location body) (Value (location e));
               doc_capacity :=
                 or_else (body_capacity body) (stored_number (capacity e));
               doc_image :=
                 match file with Some f => Some f | None => image e end;
               doc_attendees := attendees e;
               doc_createdBy := createdBy e |} with
    | Some e' =>
        (<[eventId := e']> db, send 200 (MsgEvent "Event updated successfully" e'))
    | None => (db, update_failed)
    end.
Proof.
  intros He. unfold update, findById, save, toString. rewrite He.
  rewrite bool_decide_eq_false_2 by (by intros ?).
  by destruct (validate _).
Qed.

Lemma optional_stored_number (c : option Q) :
  optional_number (stored_number c) = Some c.
Proof. by destruct c. Qed.

Lemma required_string_value (s : string) :
  s ≠ "" → required_string (Value s) = Some s.
Proof. intros H. cbn. by rewrite bool_decide_eq_false_2. Qed.

Lemma required_string_nonempty (c : Cast string) (s : string) :
  required_string c = Some s → c = Value s ∧ s ≠ "".
Proof.
  destruct c as [| |s0|]; cbn; try done.
  case_bool_decide; [done|]. by intros [= <-].
Qed.

(** Where [update] leaves each event. *)
Lemma update_lookup
    (userId eventId : ObjectId) (body : Body) (file : option string)
    (db : Collection) (id : ObjectId) :
  match db !! id with
  | Some e =>
      ∃ e', (update userId eventId body file db).1 !! id = Some e'
            ∧ attendees e' = attendees e ∧ createdBy e' = createdBy e
            ∧ (id ≠ eventId → e' = e)
  | None => (update userId eventId body file db).1 !! id = None
  end.
Proof.
  assert (Hsame : match db !! id with
                  | Some e => ∃ e', db !! id = Some e'
                                    ∧ attendees e' = attendees e
                                    ∧ createdBy e' = createdBy e
                                    ∧ (id ≠ eventId → e' = e)
                  | None => db !! id = None
                  end).
  { destruct (db !! id) as [e|]; [by exists e|done]. }
  unfold update, findById.
  destruct (db !! eventId) as [e0|] eqn:He0; [|done].
  case_bool_decide as Hown; [done|].
  unfold save. destruct (validate _) as [e1|] eqn:Hv; [|done]. cbn.
  apply validate_attendees in Hv as (Ha & Hc & _). cbn in Ha, Hc.
  destruct (decide (id = eventId)) as [->|Hne].
  - rewrite He0, lookup_insert_eq. by exists e1.
  - by rewrite lookup_insert_ne.
Qed.

(** X4. An update by the owner that sends no truthy field and no file, on an
    event whose required texts are not empty, is answered 200 with the event
    and leaves the collection as it is. *)
Theorem update_nothing_sent
    (eventId : ObjectId) (body : Body) (db : Collection) (e : Event) :
  db !! eventId = Some e →
  well_formed e →
  sends_nothing body →
  update (createdBy e) eventId body None db
  = (db, send 200 (MsgEvent "Event updated successfully" e)).
Proof.
  intros He (Ht & Hd & Hl) (Bt & Bd & Bdt & Bl & Bc).
  rewrite (update_by_owner _ _ _ _ e) by done.
  unfold or_else, validate. rewrite Bt, Bd, Bdt, Bl, Bc. cbn [doc_title
    doc_description doc_date doc_location doc_capacity doc_image
    doc_attendees doc_createdBy required_date].
  rewrite !required_string_value, optional_stored_number by done. cbn.
  destruct e; cbn. by rewrite insert_id.
Qed.

Lemma update_nothing_sent_witness :
  update alice ev1 empty_form None one_event
  = (one_event, send 200 (MsgEvent "Event updated successfully" meetup)).
Proof.
  apply (update_nothing_sent ev1 empty_form one_event meetup);
    [reflexivity|by split_and!|by split_and!].
Defined.

(** X5. Whoever sends it and whatever it carries, an update leaves the
    attendees and the owner of its event as they are, leaves every other
    event untouched, and creates no event. *)
Theorem update_frame
    (userId eventId : ObjectId) (body : Body) (file : option string)
    (db : Collection) :
  ∀ id, match db !! id with
        | Some e =>
            ∃ e', (update userId eventId body file db).1 !! id = Some e'
                  ∧ attendees e' = attendees e ∧ createdBy e' = createdBy e
                  ∧ (id ≠ eventId → e' = e)
        | None => (update userId eventId body file db).1 !! id = None
        end.
Proof. intros id. apply update_lookup. Qed.

(** X6. An update changes a field only when the body carries a truthy value
    for it: a field whose value is falsy (missing, null, the empty text, the
    JSON number 0) keeps the stored value, and without an uploaded file the
    image is kept. *)
Theorem update_keeps_unsent
    (userId eventId : ObjectId) (body : Body) (file : option string)
    (db : Collection) (e e' : Event) :
  db !! eventId = Some e →
  (update userId eventId body file db).1 !! eventId = Some e' →
  (truthy (body_title body) = false → title e' = title e)
  ∧ (truthy (body_description body) = false → description e' = description e)
  ∧ (truthy (body_date body) = false → date e' = date e)
  ∧ (truthy (body_location body) = false → location e' = location e)
  ∧ (truthy (body_capacity body) = false → capacity e' = capacity e)
  ∧ (file = None → image e' = image e).
Proof.
  intros He. unfold update, findById. rewrite He.
  case_bool_decide as Hown; cbn; [rewrite He; by intros [= <-]|].
  unfold save. destruct (validate _) as [e1|] eqn:Hv; cbn;
    [|rewrite He; by intros [= <-]].
  rewrite lookup_insert_eq. intros [= <-].
  unfold validate in Hv. cbn in Hv.
  destruct (required_string (or_else (body_title body) _)) as [t|] eqn:Ht;
    [|done].
  destruct (required_string (or_else (body_description body) _)) as [ds|]
    eqn:Hds; [|done].
  destruct (required_date (or_else (body_date body) _)) as [dt|] eqn:Hdt;
    [|done].
  destruct (required_string (or_else (body_location body) _)) as [l|] eqn:Hl;
    [|done].
  destruct (optional_number (or_else (body_capacity body) _)) as [c|] eqn:Hc;
    [|done].
  cbn in Hv. injection Hv as <-. cbn. unfold or_else in *.
  split_and!.
  - intros B. rewrite B in Ht. by apply required_string_nonempty in Ht as [[= ->] _].
  - intros B. rewrite B in Hds.
    by apply required_string_nonempty in Hds as [[= ->] _].
  - intros B. rewrite B in Hdt. cbn in Hdt. by injection Hdt as <-.
  - intros B. rewrite B in Hl. by apply required_string_nonempty in Hl as [[= ->] _].
  - intros B. rewrite B in Hc. rewrite optional_stored_number in Hc.
    by injection Hc as <-.
  - by intros ->.
Qed.

Lemma update_keeps_unsent_witness :
  one_event !! ev1 = Some meetup
  ∧ (update alice ev1 capacity_zero None one_event).1 !! ev1 = Some meetup
  ∧ (truthy (body_capacity capacity_zero) = false →
     capacity meetup = capacity meetup).
Proof.
  split_and!; [reflexivity|reflexivity|].
  apply (update_keeps_unsent alice ev1 capacity_zero None one_event
           meetup meetup); reflexivity.
Defined.

(** X7. An update by the owner that carries a truthy value its schema path
    cannot cast is answered 500 and stores nothing. *)
Theorem update_uncastable_rejected
    (eventId : ObjectId) (body : Body) (file : option string)
    (db : Collection) (e : Event) :
  db !! eventId = Some e →
  sends_uncastable body →
  update (createdBy e) eventId body file db = (db, update_failed).
Proof.
  intros He Hbad. rewrite (update_by_owner _ _ _ _ e) by done.
  unfold validate, or_else. cbn.
  destruct Hbad as [[-> ->]|[[-> ->]|[[-> ->]|[[-> ->]|[-> ->]]]]];
    repeat first
      [ done | progress cbn
      | destruct (required_string _) | destruct (required_date _) ].
Qed.

Lemma update_uncastable_rejected_witness :
  update alice ev1 bad_capacity None one_event = (one_event, update_failed).
Proof.
  apply (update_uncastable_rejected ev1 bad_capacity None one_event meetup);
    [reflexivity|]. do 4 right. by split.
Defined.

(** ** Delete *)

(** X8. A delete by the owner removes the event and nothing else and is
    answered 200; from then on a register on that [_id] is answered 400, and
    an unregister, an update, a delete and a read are answered 404, none of
    them changing the collection. *)
Theorem delete_then_gone
    (eventId : ObjectId) (db : Collection) (e : Event) :
  db !! eventId = Some e →
  deleteEvent (createdBy e) eventId db = (delete eventId db, deleted)
  ∧ (∀ id, id ≠ eventId → delete eventId db !! id = db !! id)
  ∧ ∀ userId body file,
      let db' := delete eventId db in
      register userId eventId db' = (db', rejected)
      ∧ unregister userId eventId db' = (db', not_found)
      ∧ update userId eventId body file db' = (db', not_found)
      ∧ deleteEvent userId eventId db' = (db', not_found)
      ∧ getEvent eventId db' = (db', not_found).
Proof.
  intros He. split_and!.
  - unfold deleteEvent, findById, toString. rewrite He.
    by rewrite bool_decide_eq_false_2 by (by intros ?).
  - intros id Hne. by rewrite lookup_delete_ne.
  - intros userId body file db'.
    assert (Hgone : db' !! eventId = None) by apply lookup_delete_eq.
    split_and!.
    + by apply register_missing.
    + by apply unregister_missing.
    + unfold update, findById. by rewrite Hgone.
    + unfold deleteEvent, findById. by rewrite Hgone.
    + unfold getEvent, findById. by rewrite Hgone.
Qed.

Lemma delete_then_gone_witness :
  deleteEvent alice ev1 one_event = (delete ev1 one_event, deleted)
  ∧ getEvent ev1 (delete ev1 one_event) = (delete ev1 one_event, not_found).
Proof.
  pose proof (delete_then_gone ev1 one_event meetup eq_refl) as (H1 & _ & H2).
  split; [exact H1|]. apply (H2 bob empty_form None).
Defined.

(** ** Invariants over runs of requests *)

Lemma validate_well_formed (d : Document) (e : Event) :
  validate d = Some e → well_formed e.
Proof.
  unfold validate. intros H.
  destruct (required_string (doc_title d)) as [t|] eqn:Ht; [|done].
  destruct (required_string (doc_description d)) as [ds|] eqn:Hds; [|done].
  destruct (required_date (doc_date d)); [|done].
  destruct (required_string (doc_location d)) as [l|] eqn:Hl; [|done].
  destruct (optional_number (doc_capacity d)); [|done].
  cbn in H. injection H as <-. unfold well_formed. cbn.
  apply required_string_nonempty in Ht as [_ Ht].
  apply required_string_nonempty in Hds as [_ Hds].
  by apply required_string_nonempty in Hl as [_ Hl].
Qed.

(** An event found after a request was there before, or is a stored event
    with other attendees, or came out of [validate]. *)
Lemma handle_lookup_validated
    (r : Request) (db : Collection) (id : ObjectId) (e' : Event) :
  (handle r db).1 !! id = Some e' →
  db !! id = Some e'
  ∨ (∃ e arr, db !! id = Some e ∧ e' = set_attendees arr e)
  ∨ (∃ d, validate d = Some e').
Proof.
  destruct r as [newId userId body file|userId eventId|userId eventId
                |userId eventId body file|userId eventId]; cbn [handle].
  - rewrite create_unfold. destruct (validate _) as [e0|] eqn:Hv; [|by left].
    case_bool_decide as Hnew; [by left|]. cbn.
    destruct (decide (newId = id)) as [->|Hid].
    + rewrite lookup_insert_eq. intros [= <-]. right. right. by eexists.
    + rewrite lookup_insert_ne by done. by left.
  - intros H. apply (handle_lookup (Register userId eventId)) in H
      as [H|[(e & u & He & _ & _ & ->)|[(e & u & He & [=] & _)
         |[(u & b & f & _ & [=] & _)|(e & b & f & _ & [=] & _)]]]].
    + by left.
    + right. left. by eexists _, _.
  - intros H. apply (handle_lookup (Unregister userId eventId)) in H
      as [H|[(e & u & He & [=] & _)|[(e & u & He & _ & ->)
         |[(u & b & f & _ & [=] & _)|(e & b & f & _ & [=] & _)]]]].
    + by left.
    + right. left. by eexists _, _.
  - unfold update, findById.
    destruct (db !! eventId) as [e|] eqn:He; [|by left].
    case_bool_decide as Hown; [by left|].
    unfold save. destruct (validate _) as [e1|] eqn:Hv; [|by left]. cbn.
    destruct (decide (eventId = id)) as [->|Hid].
    + rewrite lookup_insert_eq. intros [= <-]. right. right. by eexists.
    + rewrite lookup_insert_ne by done. by left.
  - unfold deleteEvent, findById.
    destruct (db !! eventId) as [e|] eqn:He; [|by left].
    case_bool_decide as Hown; [by left|]. cbn.
    destruct (decide (eventId = id)) as [->|Hid].
    + by rewrite lookup_delete_eq.
    + rewrite lookup_delete_ne by done. by left.
Qed.

Lemma handle_well_formed (r : Request) (db : Collection) :
  all_well_formed db → all_well_formed (handle r db).1.
Proof.
  intros Hdb id e' [H|[(e & arr & He & ->)|(d & Hv)]]%handle_lookup_validated.
  - by apply (Hdb id).
  - apply (Hdb id e He).
  - by apply (validate_well_formed d).
Qed.

(** X9. If every stored event has a non-empty title, description and
    location, so has every stored event after any run of requests: no create
    and no update gets an empty required text past validation. *)
Theorem required_texts_kept (rs : list Request) (db : Collection) :
  all_well_formed db → all_well_formed (serve rs db).1.
Proof.
  revert db. induction rs as [|r rs IH]; intros db Hdb; [done|].
  rewrite serve_cons. cbn. by apply IH, handle_well_formed.
Qed.

Lemma all_well_formed_empty : all_well_formed ∅.
Proof. intros id e H. by rewrite lookup_empty in H. Qed.

Lemma required_texts_kept_witness :
  all_well_formed
    (serve [Create ev1 alice new_meetup None; Update alice ev1 smaller_hall None;
            Register bob ev1] ∅).1.
Proof.
  apply (required_texts_kept
           [Create ev1 alice new_meetup None; Update alice ev1 smaller_hall None;
            Register bob ev1] ∅ all_well_formed_empty).
Defined.

Lemma handle_keeps_event
    (r : Request) (db : Collection) (id : ObjectId) (e : Event) :
  db !! id = Some e →
  r ≠ Delete (createdBy e) id →
  ∃ e', (handle r db).1 !! id = Some e' ∧ createdBy e' = createdBy e.
Proof.
  intros He Hr.
  destruct r as [newId userId body file|userId eventId|userId eventId
                |userId eventId body file|userId eventId]; cbn [handle].
  - exists e. split; [by apply create_lookup_old|done].
  - pose proof (register_frame userId eventId db id) as H.
    rewrite He in H. destruct H as (e' & H & Hm & _).
    exists e'. split; [done|apply Hm].
  - pose proof (unregister_frame userId eventId db id) as H.
    rewrite He in H. destruct H as (e' & H & Hm & _).
    exists e'. split; [done|apply Hm].
  - pose proof (update_lookup userId eventId body file db id) as H.
    rewrite He in H. destruct H as (e' & H & _ & Hc & _). by exists e'.
  - unfold deleteEvent, findById.
    destruct (db !! eventId) as [e0|] eqn:He0; [|by exists e].
    unfold toString. case_bool_decide as Hown; [by exists e|]. cbn.
    destruct (decide (eventId = id)) as [->|Hid].
    + assert (e0 = e) as -> by congruence. by subst userId.
    + exists e. by rewrite lookup_delete_ne.
Qed.

(** X10. An event stays in the collection, with the same [createdBy],
    through any run of requests that contains no delete of it by its owner:
    ownership is never transferred and nobody else can remove the event. *)
Theorem event_and_owner_persist
    (rs : list Request) (db : Collection) (id : ObjectId) (e : Event) :
  db !! id = Some e →
  Forall (λ r, r ≠ Delete (createdBy e) id) rs →
  ∃ e', (serve rs db).1 !! id = Some e' ∧ createdBy e' = createdBy e.
Proof.
  revert db e. induction rs as [|r rs IH]; intros db e He Hrs.
  - by exists e.
  - apply Forall_cons in Hrs as [Hr Hrs]. rewrite serve_cons. cbn.
    destruct (handle_keeps_event r db id e He Hr) as (e1 & He1 & Hc1).
    destruct (IH (handle r db).1 e1 He1) as (e' & He' & Hc').
    + by rewrite Hc1.
    + exists e'. split; [done|congruence].
Qed.

Lemma event_and_owner_persist_witness :
  ∃ e', (serve [Delete bob ev1; Update bob ev1 smaller_hall None;
                Register bob ev1; Update alice ev1 larger_hall None]
               one_event).1 !! ev1 = Some e'
        ∧ createdBy e' = alice.
Proof.
  apply (event_and_owner_persist
           [Delete bob ev1; Update bob ev1 smaller_hall None;
            Register bob ev1; Update alice ev1 larger_hall None]
           one_event ev1 meetup eq_refl).
  repeat (apply Forall_cons; split; [discriminate|]). apply Forall_nil_2.
Defined.

(** X11. An event appears in the collection only through a create with its
    [_id], and it appears without attendees: no register, unregister, update
    or delete ever makes an event. *)
Theorem only_create_adds
    (r : Request) (db : Collection) (id : ObjectId) (e' : Event) :
  db !! id = None →
  (handle r db).1 !! id = Some e' →
  (∃ userId body file, r = Create id userId body file) ∧ attendees e' = [].
Proof.
  intros Hnone
    [H|[(e & u & He & _)|[(e & u & He & _)
       |[(u & b & f & _ & -> & Ha & _)|(e & b & f & He & _)]]]]%handle_lookup;
    try congruence.
  split; [by eexists _, _, _|done].
Qed.

Lemma only_create_adds_witness :
  (∃ userId body file,
     Create ev2 bob new_meetup None = Create ev2 userId body file)
  ∧ attendees {| title := "Meetup"; description := "Monthly meetup";
                 date := 1767225600000; location := "Hall A";
                 capacity := Some (2 # 1); image := None;
                 attendees := []; createdBy := bob |} = [].
Proof.
  apply (only_create_adds (Create ev2 bob new_meetup None) one_event ev2);
    reflexivity.
Defined.

(** ** How requests compose *)

Lemma length_pull_lt (u : ObjectId) (arr : list ObjectId) :
  u ∈ arr → (length (pull u arr) < length arr)%nat.
Proof.
  intros Hin. unfold pull.
  apply (length_filter_lt _ _ u); [done|]. by intros H.
Qed.

(** X12. An unregistration frees a seat at once: when the attendees of an
    event are within its capacity and [u] is one of them, then right after
    [u] unregisters, a register by [u] again or by any user who is not an
    attendee succeeds, even if the event was full. *)
Theorem unregister_frees_seat
    (u v eventId : ObjectId) (db : Collection) (e : Event) (c : Q) :
  db !! eventId = Some e →
  capacity e = Some c →
  (size_of (attendees e) <= c)%Q →
  u ∈ attendees e →
  v = u ∨ v ∉ attendees e →
  (register v eventId (unregister u eventId db).1).2
  = registered (S (length (pull u (attendees e)))).
Proof.
  intros He Hc Hle Hin Hv.
  rewrite (unregister_found _ _ _ e) by done. cbn [fst].
  rewrite (register_accept _ _ _ (set_attendees (pull u (attendees e)) e)).
  - done.
  - apply lookup_insert_eq.
  - apply can_register_iff. split.
    + cbn. destruct Hv as [->|Hv]; [apply pull_removes|].
      rewrite elem_of_pull. by intros [_ ?].
    + exists c. split; [done|]. cbn.
      apply Qlt_le_trans with (size_of (attendees e)); [|done].
      unfold size_of. rewrite <- Zlt_Qlt.
      pose proof (length_pull_lt u (attendees e) Hin). lia.
Qed.

Lemma unregister_frees_seat_witness :
  (register carol ev1
     (unregister bob ev1
        {[ ev1 := set_attendees [alice; bob] meetup ]}).1).2
  = registered 2.
Proof.
  apply (unregister_frees_seat bob carol ev1
           {[ ev1 := set_attendees [alice; bob] meetup ]}
           (set_attendees [alice; bob] meetup) (2 # 1)).
  - reflexivity.
  - reflexivity.
  - by vm_compute.
  - by apply (bool_decide_unpack _).
  - right. by apply (bool_decide_unpack _).
Defined.

Lemma ledger_other
    (r : Request) (eventId id : ObjectId) (db : Collection) :
  on_ledger_of eventId r → id ≠ eventId →
  (handle r db).1 !! id = db !! id.
Proof.
  intros [u [->| ->]] Hne; cbn [handle].
  - pose proof (register_frame u eventId db id) as H.
    destruct (db !! id) as [e|]; [|done].
    destruct H as (e' & -> & _ & Heq). by rewrite Heq.
  - pose proof (unregister_frame u eventId db id) as H.
    destruct (db !! id) as [e|]; [|done].
    destruct H as (e' & -> & _ & Heq). by rewrite Heq.
Qed.

Lemma ledger_local
    (r : Request) (eventId : ObjectId) (db1 db2 : Collection) :
  on_ledger_of eventId r → db1 !! eventId = db2 !! eventId →
  (handle r db1).2 = (handle r db2).2
  ∧ (handle r db1).1 !! eventId = (handle r db2).1 !! eventId.
Proof.
  intros [u [->| ->]] Heq; cbn [handle].
  - unfold register, findOneAndUpdate. rewrite <- Heq.
    destruct (db1 !! eventId) as [e|] eqn:He; cbn; [|split; congruence].
    destruct (can_register u e); cbn; [|split; congruence].
    by rewrite !lookup_insert_eq.
  - unfold unregister, findByIdAndUpdate, findOneAndUpdate. rewrite <- Heq.
    destruct (db1 !! eventId) as [e|] eqn:He; cbn; [|split; congruence].
    by rewrite !lookup_insert_eq.
Qed.

(** X13. Registrations and unregistrations on two different events do not
    interfere: served in either order they get the same answers and leave
    the same collection. *)
Theorem ledger_requests_commute
    (r1 r2 : Request) (id1 id2 : ObjectId) (db : Collection) :
  on_ledger_of id1 r1 →
  on_ledger_of id2 r2 →
  id1 ≠ id2 →
  (handle r2 (handle r1 db).1).1 = (handle r1 (handle r2 db).1).1
  ∧ (handle r1 (handle r2 db).1).2 = (handle r1 db).2
  ∧ (handle r2 (handle r1 db).1).2 = (handle r2 db).2.
Proof.
  intros H1 H2 Hne.
  assert (L1 : (handle r2 db).1 !! id1 = db !! id1)
    by (by apply (ledger_other r2 id2)).
  assert (L2 : (handle r1 db).1 !! id2 = db !! id2)
    by (by apply (ledger_other r1 id1)).
  destruct (ledger_local r1 id1 _ _ H1 L1) as [R1 S1].
  destruct (ledger_local r2 id2 _ _ H2 L2) as [R2 S2].
  split_and!; [|done|done].
  apply map_eq. intros k.
  destruct (decide (k = id1)) as [->|Hk1].
  - rewrite (ledger_other r2 id2) by done. by rewrite S1.
  - destruct (decide (k = id2)) as [->|Hk2].
    + rewrite (ledger_other r1 id1 id2 (handle r2 db).1) by done. by rewrite S2.
    + rewrite (ledger_other r2 id2 k), (ledger_other r1 id1 k) by done.
      by rewrite (ledger_other r1 id1 k), (ledger_other r2 id2 k) by done.
Qed.

Lemma ledger_requests_commute_witness :
  (handle (Unregister alice ev2) (handle (Register bob ev1) one_event).1).1
  = (handle (Register bob ev1) (handle (Unregister alice ev2) one_event).1).1
  ∧ (handle (Register bob ev1) (handle (Unregister alice ev2) one_event).1).2
    = (handle (Register bob ev1) one_event).2
  ∧ (handle (Unregister alice ev2) (handle (Register bob ev1) one_event).1).2
    = (handle (Unregister alice ev2) one_event).2.
Proof.
  apply (ledger_requests_commute (Register bob ev1) (Unregister alice ev2)
           ev1 ev2 one_event).
  - exists bob. by left.
  - exists alice. by right.
  - discriminate.
Defined.

(** X14. Right after a create that was answered 201, a register on the new
    event succeeds, with count 1, exactly when the capacity sent was cast to
    a number above 0; an event created without a capacity, or with capacity
    0 or below, rejects its first registration. *)
Theorem first_registration
    (newId userId u : ObjectId) (body : Body) (file : option string)
    (db : Collection) :
  status (create newId userId body file db).2 = 201 →
  ((register u newId (create newId userId body file db).1).2 = registered 1
   ↔ ∃ q, cast (body_capacity body) = Value q ∧ (0 < q)%Q)
  ∧ ((register u newId (create newId userId body file db).1).2 = registered 1
     ∨ (register u newId (create newId userId body file db).1).2 = rejected).
Proof.
  rewrite create_unfold. destruct (validate _) as [e|] eqn:Hv; [|done].
  case_bool_decide as Hnew; [done|]. cbn [fst snd]. intros _.
  apply validate_attendees in Hv as (Ha & _ & Hc). cbn in Ha, Hc.
  assert (Hl : <[newId := e]> db !! newId = Some e) by apply lookup_insert_eq.
  assert (Hroom : can_register u e = true
                  ↔ ∃ q, cast (body_capacity body) = Value q ∧ (0 < q)%Q).
  { unfold can_register. rewrite Ha. unfold ne.
    rewrite bool_decide_eq_true_2 by (by intros ?%elem_of_nil).
    cbn [andb]. rewrite lt_capacity_iff. split.
    - intros (c & Hcap & Hlt). rewrite Hcap in Hc.
      destruct (cast (body_capacity body)) as [| |q|]; try done.
      cbn in Hc. injection Hc as ->. by exists c.
    - intros (q & Hq & Hlt). rewrite Hq in Hc. cbn in Hc.
      injection Hc as <-. by exists q. }
  destruct (can_register u e) eqn:E.
  - rewrite (register_accept _ _ _ e) by done. rewrite Ha. cbn.
    split; [|by left]. split; [intros _; by apply Hroom|done].
  - rewrite (register_reject _ _ _ e) by done. cbn.
    split; [|by right]. split; [done|].
    intros Hq. apply Hroom in Hq. done.
Qed.

Lemma first_registration_witness :
  status (create ev2 alice new_meetup None one_event).2 = 201
  ∧ (register bob ev2 (create ev2 alice new_meetup None one_event).1).2
    = registered 1.
Proof.
  split; [reflexivity|].
  apply (first_registration ev2 alice bob new_meetup None one_event);
    [reflexivity|].
  exists (2 # 1)%Q. split; reflexivity.
Defined.

(** X15. The count in the answer to a successful register or unregister is
    the number of attendees a read of the event returns right afterwards. *)
Theorem count_matches_read
    (r : Request) (eventId : ObjectId) (db : Collection)
    (m : string) (n : nat) :
  on_ledger_of eventId r →
  (handle r db).2 = send 200 (MsgCount m n) →
  ∃ e', getEvent eventId (handle r db).1 = ((handle r db).1, send 200 (Doc e'))
        ∧ length (attendees e') = n.
Proof.
  intros [u [->| ->]]; cbn [handle].
  - destruct (db !! eventId) as [e|] eqn:He.
    + destruct (can_register u e) eqn:E.
      * rewrite (register_accept _ _ _ e) by done. cbn [fst snd].
        intros [= <- <-]. eexists. unfold getEvent, findById.
        rewrite lookup_insert_eq. split; [done|]. cbn.
        rewrite length_app. cbn. lia.
      * by rewrite (register_reject _ _ _ e) by done.
    + by rewrite register_missing by done.
  - destruct (db !! eventId) as [e|] eqn:He.
    + rewrite (unregister_found _ _ _ e) by done. cbn [fst snd].
      intros [= <- <-]. eexists. unfold getEvent, findById.
      rewrite lookup_insert_eq. by split.
    + by rewrite unregister_missing by done.
Qed.

Lemma count_matches_read_witness :
  ∃ e', getEvent ev1 (handle (Register bob ev1) one_event).1
        = ((handle (Register bob ev1) one_event).1, send 200 (Doc e'))
        ∧ length (attendees e') = 1%nat.
Proof.
  apply (count_matches_read (Register bob ev1) ev1 one_event
           "Registered successfully" 1).
  - exists bob. by left.
  - reflexivity.
Defined.

(** X16. When the owner's update is answered 200 and carried a truthy
    capacity that casts to a number above the current number of attendees, a
    register by a user who is not an attendee succeeds right afterwards,
    whatever the capacity was before: raising the capacity of a full event
    opens seats, and the attendees it had are all kept. *)
Theorem raise_capacity_admits
    (v eventId : ObjectId) (body : Body) (file : option string)
    (db : Collection) (e : Event) (c : Q) :
  db !! eventId = Some e →
  status (update (createdBy e) eventId body file db).2 = 200 →
  truthy (body_capacity body) = true →
  cast (body_capacity body) = Value c →
  (size_of (attendees e) < c)%Q →
  v ∉ attendees e →
  (register v eventId (update (createdBy e) eventId body file db).1).2
  = registered (S (length (attendees e)))
  ∧ ∃ e2, (register v eventId
             (update (createdBy e) eventId body file db).1).1 !! eventId
          = Some e2
          ∧ attendees e2 = attendees e ++ [v] ∧ capacity e2 = Some c.
Proof.
  intros He Hok Ht Hc Hlt Hv. revert Hok.
  rewrite (update_by_owner _ _ _ _ e) by done.
  destruct (validate _) as [e1|] eqn:Hval; [|done]. intros _. cbn [fst].
  apply validate_attendees in Hval as (Ha & _ & Hcap). cbn in Ha, Hcap.
  unfold or_else in Hcap. rewrite Ht, Hc in Hcap. cbn in Hcap.
  injection Hcap as Hcap.
  rewrite (register_accept _ _ _ e1).
  - cbn [fst snd]. rewrite Ha. split; [done|].
    eexists. rewrite lookup_insert_eq. split; [done|]. by cbn.
  - apply lookup_insert_eq.
  - apply can_register_iff. split; [by rewrite Ha|].
    exists c. by rewrite Ha.
Qed.

(** A full event: two seats, two attendees. *)
Lemma raise_capacity_admits_witness :
  (register carol ev1
     (update alice ev1 larger_hall None
        {[ ev1 := set_attendees [alice; bob] meetup ]}).1).2
  = registered 3.
Proof.
  apply (raise_capacity_admits carol ev1 larger_hall None
           {[ ev1 := set_attendees [alice; bob] meetup ]}
           (set_attendees [alice; bob] meetup) (3 # 1)).
  - reflexivity.
  - reflexivity.
  - reflexivity.
  - reflexivity.
  - reflexivity.
  - by apply (bool_decide_unpack _).
Defined.
